(** * network_c.h: the C interface of the graph glue layer

    The repository's source is one C header, [src/network_c.h].  It holds a
    head comment, an include guard ([NETWORK_H_]), one [#include] of the host
    runtime's header and two function declarations.  The development embeds
    the file's text, runs a small model of the C translation phases over it
    (comment removal, conditional inclusion, tokenisation, splitting into
    external declarations) and states the interface properties on the result.
    The bodies of the two functions are not part of the source; what is said
    about their behaviour is said for every body, or against a model that is
    marked as such. *)

From Stdlib Require Import ZArith String Ascii.
From stdpp Require Import gmap strings list.

Local Open Scope string_scope.

(** ** The file *)

Module Header.

Definition nl : ascii := "010"%char.

(** [src/network_c.h], line by line; the last line has no terminator. *)
Definition network_c_h_lines : list string :=
  [ "/*"
  ; " * network_c.h"
  ; " *"
  ; " *  Created on: 27 Apr 2021"
  ; " *      Author: slwu89"
  ; " */"
  ; ""
  ; "#ifndef NETWORK_H_"
  ; "#define NETWORK_H_"
  ; ""
  ; "#include <Rinternals.h>"
  ; ""
  ; "// call before calling anything else in this header"
  ; "void register_functions_C();"
  ; ""
  ; "// get out neighborhood of a vertex v in a graph g"
  ; "SEXP get_out_neighborhood_C(SEXP g, int v);"
  ; ""
  ; "// get out neighborhood"
  ; ""
  ; "#endif" ].

Fixpoint join_lines (ls : list string) : string :=
  match ls with
  | [] => ""
  | [l] => l
  | l :: rest => l ++ String nl (join_lines rest)
  end.

(** The file as the sequence of characters on disk. *)
Definition network_c_h : string := join_lines network_c_h_lines.

(** The supplied excerpt of the repository: path and contents of each file. *)
Definition repository : list (string * string) :=
  [ ("src/network_c.h", network_c_h) ].

(** The number of line terminators of a file. *)
Fixpoint newline_count (s : string) : nat :=
  match s with
  | EmptyString => 0
  | String c rest =>
      if Ascii.eqb c nl then S (newline_count rest) else newline_count rest
  end.

(** The text after the last line terminator (an unterminated last line). *)
Fixpoint last_fragment (acc : string) (s : string) : string :=
  match s with
  | EmptyString => acc
  | String c rest =>
      if Ascii.eqb c nl then last_fragment "" rest
      else last_fragment (acc ++ String c "") rest
  end.

(** The lines of a file, an unterminated last line included: what an editor
    numbers, and what the translation phases see as lines. *)
Definition line_count (s : string) : nat :=
  match last_fragment "" s with
  | EmptyString => newline_count s
  | _ => S (newline_count s)
  end.

Fixpoint has_suffix (suf s : string) : bool :=
  if String.eqb suf s then true
  else match s with
       | EmptyString => false
       | String _ rest => has_suffix suf rest
       end.

(** ** Translation phase 3: comments *)

Inductive cstate :=
  | Code        (* ordinary text *)
  | Slash       (* a '/' was read in ordinary text *)
  | LineComment (* after // *)
  | Block       (* after /* *)
  | BlockStar.  (* a '*' was read inside a block comment *)

(** Comments are removed; a block comment leaves one space and keeps the line
    terminators it spans, so that line structure survives.  String and
    character literals are not treated: the header has none. *)
Fixpoint strip_comments (st : cstate) (s : string) : string :=
  match s with
  | EmptyString =>
      match st with Slash => "/" | _ => "" end
  | String c rest =>
      match st with
      | Code =>
          if Ascii.eqb c "/" then strip_comments Slash rest
          else String c (strip_comments Code rest)
      | Slash =>
          if Ascii.eqb c "/" then strip_comments LineComment rest
          else if Ascii.eqb c "*" then strip_comments Block rest
          else String "/" (String c (strip_comments Code rest))
      | LineComment =>
          if Ascii.eqb c nl then String nl (strip_comments Code rest)
          else strip_comments LineComment rest
      | Block =>
          if Ascii.eqb c "*" then strip_comments BlockStar rest
          else if Ascii.eqb c nl then String nl (strip_comments Block rest)
          else strip_comments Block rest
      | BlockStar =>
          if Ascii.eqb c "/" then String " " (strip_comments Code rest)
          else if Ascii.eqb c "*" then strip_comments BlockStar rest
          else if Ascii.eqb c nl then String nl (strip_comments Block rest)
          else strip_comments Block rest
      end
  end.

Fixpoint split_lines_aux (acc : string) (s : string) : list string :=
  match s with
  | EmptyString => [acc]
  | String c rest =>
      if Ascii.eqb c nl then acc :: split_lines_aux "" rest
      else split_lines_aux (acc ++ String c "") rest
  end.

Definition split_lines (s : string) : list string := split_lines_aux "" s.

(** ** Tokens *)

Inductive token :=
  | TId (s : string)     (* identifier, keyword or number *)
  | TPunct (c : ascii).  (* any other visible character *)

Definition is_space (c : ascii) : bool :=
  Ascii.eqb c " " || Ascii.eqb c "009" || Ascii.eqb c nl || Ascii.eqb c "013".

Definition is_ident_char (c : ascii) : bool :=
  let n := nat_of_ascii c in
  (Nat.leb 65 n && Nat.leb n 90) || (Nat.leb 97 n && Nat.leb n 122)
  || (Nat.leb 48 n && Nat.leb n 57) || Nat.eqb n 95.

Definition flush (acc : string) (ts : list token) : list token :=
  match acc with
  | EmptyString => ts
  | _ => TId acc :: ts
  end.

Fixpoint tokenize_aux (acc : string) (s : string) : list token :=
  match s with
  | EmptyString => flush acc []
  | String c rest =>
      if is_ident_char c then tokenize_aux (acc ++ String c "") rest
      else if is_space c then flush acc (tokenize_aux "" rest)
      else flush acc (TPunct c :: tokenize_aux "" rest)
  end.

Definition tokenize (s : string) : list token := tokenize_aux "" s.

Definition token_text (t : token) : string :=
  match t with
  | TId s => s
  | TPunct c => String c ""
  end.

Definition is_punct (c : ascii) (t : token) : bool :=
  match t with
  | TPunct d => Ascii.eqb c d
  | TId _ => false
  end.

(** ** Translation phase 4: directives *)

Inductive pline :=
  | PIfndef (m : string)
  | PDefine (m : string)
  | PInclude (f : string)
  | PEndif
  | PUnknown (ts : list token)  (* a directive this header does not use *)
  | PText (ts : list token).    (* an ordinary line of tokens *)

(** The name between [<] and [>] (or the quotes) of an [#include]. *)
Definition include_name (ts : list token) : string :=
  match ts with
  | _ :: body => String.concat "" (map token_text (removelast body))
  | [] => ""
  end.

Definition classify (line : string) : pline :=
  match tokenize line with
  | TPunct c :: rest =>
      if Ascii.eqb c "#" then
        match rest with
        | [TId d; TId m] =>
            if String.eqb d "ifndef" then PIfndef m
            else if String.eqb d "define" then PDefine m
            else PUnknown rest
        | [TId d] =>
            if String.eqb d "endif" then PEndif else PUnknown rest
        | TId d :: args =>
            if String.eqb d "include" then PInclude (include_name args)
            else PUnknown rest
        | _ => PUnknown rest
        end
      else PText (TPunct c :: rest)
  | ts => PText ts
  end.

(** What a file contributes to the translation unit that includes it. *)
Inductive pitem :=
  | IInclude (f : string)       (* the contents of another header, not expanded *)
  | IText (ts : list token)
  | IUnknown (ts : list token).

(** The innermost conditional group decides whether lines are kept; a group
    opened inside a skipped group is skipped as well. *)
Definition active (stack : list bool) : bool :=
  match stack with
  | [] => true
  | b :: _ => b
  end.

(** Conditional inclusion over the lines of one file.  Only what this header
    uses is modelled: [defs] holds the names of the macros defined so far,
    text lines are kept without macro replacement, and an included header is
    left as an item, so what it would define is not known here. *)
Fixpoint run (stack : list bool) (defs : gset string) (ls : list pline)
  : gset string * list pitem :=
  match ls with
  | [] => (defs, [])
  | l :: rest =>
      match l with
      | PIfndef m =>
          run ((active stack && negb (bool_decide (m ∈ defs))) :: stack) defs rest
      | PEndif => run (tail stack) defs rest
      | PDefine m =>
          run stack (if active stack then {[ m ]} ∪ defs else defs) rest
      | PInclude f =>
          let '(d, out) := run stack defs rest in
          (d, if active stack then IInclude f :: out else out)
      | PUnknown ts =>
          let '(d, out) := run stack defs rest in
          (d, if active stack then IUnknown ts :: out else out)
      | PText [] => run stack defs rest
      | PText ts =>
          let '(d, out) := run stack defs rest in
          (d, if active stack then IText ts :: out else out)
      end
  end.

Definition plines (file : string) : list pline :=
  map classify (split_lines (strip_comments Code file)).

(** Including [file] where the macros [defs] are defined. *)
Definition preprocess (defs : gset string) (file : string)
  : gset string * list pitem :=
  run [] defs (plines file).

(** A translation unit that includes the same file [n] times in a row: the
    contribution of each inclusion, in order, and the macros defined at the
    end. *)
Fixpoint include_times (n : nat) (defs : gset string) (file : string)
  : gset string * list (list pitem) :=
  match n with
  | O => (defs, [])
  | S k =>
      let '(d1, out) := preprocess defs file in
      let '(d2, outs) := include_times k d1 file in
      (d2, out :: outs)
  end.

(** ** External declarations *)

Inductive ctype :=
  | TVoid
  | TInt
  | TNamed (n : string).  (* a type name declared elsewhere, such as SEXP *)

Record param := { p_type : ctype; p_name : string }.

(** A function declared with a parameter type list ([T f(void)],
    [T f(T1 x1, ...)]) has a prototype.  One declared with empty parentheses,
    [T f()], has none in C up to C17: the declaration says nothing about
    number and types of the parameters.  C23 and C++ read the empty
    parentheses as [(void)]. *)
Inductive decl :=
  | FunDecl (ret : ctype) (name : string) (params : list param)
  | FunDeclNoProto (ret : ctype) (name : string)
  | FunDef (ts : list token)    (* a declarator followed by a body *)
  | DataDef (ts : list token)   (* struct, union, enum or typedef *)
  | OtherDecl (ts : list token).

Definition parse_type (s : string) : ctype :=
  if String.eqb s "void" then TVoid
  else if String.eqb s "int" then TInt
  else TNamed s.

Definition is_data_keyword (t : token) : bool :=
  match t with
  | TId s =>
      String.eqb s "struct" || String.eqb s "union" || String.eqb s "enum"
      || String.eqb s "typedef"
  | TPunct _ => false
  end.

Definition starts_data (ts : list token) : bool :=
  match ts with
  | t :: _ => is_data_keyword t
  | [] => false
  end.

(** Tokens up to a [;] outside braces, or up to the brace that closes the
    body of a function, make one external declaration. *)
Fixpoint chunks (depth : nat) (acc : list token) (ts : list token)
  : list (list token) :=
  match ts with
  | [] => match acc with [] => [] | _ => [acc] end
  | t :: rest =>
      if is_punct "{" t then chunks (S depth) (app acc [t]) rest
      else if is_punct "}" t then
        if Nat.eqb depth 1 && negb (starts_data acc) && existsb (is_punct "(") acc
        then (app acc [t]) :: chunks 0 [] rest
        else chunks (Nat.pred depth) (app acc [t]) rest
      else if is_punct ";" t && Nat.eqb depth 0
      then (app acc [t]) :: chunks 0 [] rest
      else chunks depth (app acc [t]) rest
  end.

Fixpoint split_commas (acc : list token) (ts : list token)
  : list (list token) :=
  match ts with
  | [] => [acc]
  | t :: rest =>
      if is_punct "," t then acc :: split_commas [] rest
      else split_commas (app acc [t]) rest
  end.

Definition parse_param (ts : list token) : option param :=
  match ts with
  | [TId t; TId n] => Some {| p_type := parse_type t; p_name := n |}
  | _ => None
  end.

Fixpoint parse_param_list (ps : list (list token)) : option (list param) :=
  match ps with
  | [] => Some []
  | p :: rest =>
      match parse_param p, parse_param_list rest with
      | Some x, Some xs => Some (x :: xs)
      | _, _ => None
      end
  end.

Inductive param_list :=
  | Unspecified                  (* empty parentheses *)
  | Prototype (ps : list param). (* a parameter type list *)

(** The tokens between the parentheses of a function declarator. *)
Definition parse_params (ts : list token) : option param_list :=
  match ts with
  | [] => Some Unspecified
  | [TId t] => if String.eqb t "void" then Some (Prototype []) else None
  | _ => Prototype <$> parse_param_list (split_commas [] ts)
  end.

Definition parse_decl (ts : list token) : decl :=
  if existsb (is_punct "{") ts then
    (if starts_data ts then DataDef ts else FunDef ts)
  else if starts_data ts then DataDef ts
  else
    match ts with
    | TId r :: TId n :: open :: rest =>
        match rev rest with
        | semi :: close :: inner =>
            if is_punct "(" open && is_punct ")" close && is_punct ";" semi then
              match parse_params (rev inner) with
              | Some (Prototype ps) => FunDecl (parse_type r) n ps
              | Some Unspecified => FunDeclNoProto (parse_type r) n
              | None => OtherDecl ts
              end
            else OtherDecl ts
        | _ => OtherDecl ts
        end
    | _ => OtherDecl ts
    end.

Fixpoint item_tokens (items : list pitem) : list token :=
  match items with
  | [] => []
  | IText ts :: rest => app ts (item_tokens rest)
  | _ :: rest => item_tokens rest
  end.

(** The declarations a list of preprocessed items holds itself (what an
    included header declares is not looked into). *)
Definition declarations (items : list pitem) : list decl :=
  map parse_decl (chunks 0 [] (item_tokens items)).

Definition includes (items : list pitem) : list string :=
  omap (fun i => match i with IInclude f => Some f | _ => None end) items.

Definition unknown_directives (items : list pitem) : list (list token) :=
  omap (fun i => match i with IUnknown ts => Some ts | _ => None end) items.

(** The header, included once into an empty translation unit. *)
Definition network_c_h_items : list pitem := snd (preprocess ∅ network_c_h).

Definition network_c_h_decls : list decl := declarations network_c_h_items.

Definition decl_name (d : decl) : option string :=
  match d with
  | FunDecl _ n _ => Some n
  | FunDeclNoProto _ n => Some n
  | _ => None
  end.

Definition lookup_decl (n : string) (ds : list decl) : option decl :=
  List.find (fun d => match decl_name d with
                      | Some m => String.eqb n m
                      | None => false
                      end) ds.

Definition is_fun_decl (d : decl) : bool :=
  match d with
  | FunDecl _ _ _ => true
  | FunDeclNoProto _ _ => true
  | _ => false
  end.

Definition is_prototype (d : decl) : bool :=
  match d with
  | FunDecl _ _ _ => true
  | _ => false
  end.

Definition decl_ret (d : decl) : option ctype :=
  match d with
  | FunDecl r _ _ => Some r
  | FunDeclNoProto r _ => Some r
  | _ => None
  end.

(** The language a translation unit is read in. *)
Inductive dialect :=
  | UpToC17   (* C90, C99, C11, C17 *)
  | C23.      (* C23; C++ agrees on empty parentheses *)

(** What a declaration means in a dialect: only the reading of empty
    parentheses differs. *)
Definition read_as (l : dialect) (d : decl) : decl :=
  match l, d with
  | C23, FunDeclNoProto r n => FunDecl r n []
  | _, _ => d
  end.

(** Whether a call with [n] arguments meets the constraint on calls: with a
    prototype in scope the number of arguments must agree with the number of
    parameters; without one no number is ruled out. *)
Definition accepts_arity (d : decl) (n : nat) : bool :=
  match d with
  | FunDecl _ _ ps => Nat.eqb (length ps) n
  | FunDeclNoProto _ _ => true
  | _ => false
  end.

(** Whether a declaration of the header says what the type called [n] is. *)
Definition defines_type (n : string) (d : decl) : bool :=
  match d with
  | DataDef ts => existsb (fun t => String.eqb n (token_text t)) ts
  | _ => false
  end.

(** A type is opaque in a header that names it and does not define it. *)
Definition opaque (ds : list decl) (t : ctype) : bool :=
  match t with
  | TNamed n => negb (existsb (defines_type n) ds)
  | TVoid | TInt => false
  end.

Definition is_blank (l : pline) : bool :=
  match l with
  | PText [] => true
  | _ => false
  end.

(** The lines of a file that carry a directive or tokens. *)
Definition content_lines (file : string) : list pline :=
  List.filter (fun l => negb (is_blank l)) (plines file).

End Header.

(** ** The values of the parameter types *)

Module CInt.
Import Header.

(** [int] is a signed integer type whose width the implementation chooses
    (at least 16 bits); [<limits.h>] is not part of the source, so the width
    is a parameter. *)
Definition INT_MAX (int_bits : Z) : Z := 2 ^ (int_bits - 1) - 1.
Definition INT_MIN (int_bits : Z) : Z := - 2 ^ (int_bits - 1).

Definition is_signed (t : ctype) : bool :=
  match t with
  | TInt => true
  | _ => false
  end.

(** The integers a parameter of type [t] can hold. *)
Definition admits (int_bits : Z) (t : ctype) (z : Z) : bool :=
  match t with
  | TInt => (INT_MIN int_bits <=? z)%Z && (z <=? INT_MAX int_bits)%Z
  | TVoid | TNamed _ => false
  end.

(** The type of the parameter called [x] of the function called [f]. *)
Definition param_type (f x : string) (ds : list decl) : option ctype :=
  match lookup_decl f ds with
  | Some (FunDecl _ _ ps) =>
      p_type <$> List.find (fun p => String.eqb x (p_name p)) ps
  | _ => None
  end.

End CInt.

(** ** Calling a function declared with value parameters *)

Module Call.
Import CInt.

(** Objects of type [int] live in a memory of addressed cells; this holds the
    variables of the callers and the objects with static storage alike. *)
Definition addr := Z.
Definition memory := gmap Z Z.

(** Conversion to [int]: a value in range is kept; one out of range is
    reduced modulo two to the width, which is what implementations define
    for the case the language leaves to them. *)
Definition to_int (int_bits : Z) (z : Z) : Z :=
  (z + 2 ^ (int_bits - 1)) mod 2 ^ int_bits - 2 ^ (int_bits - 1).

Definition load (m : memory) (a : addr) : Z := default 0%Z (m !! a).

(** The body of [get_out_neighborhood_C] is not part of the source, so a
    body is any statement of the fragment below.  It can read and assign its
    parameter [v], and it can read and write any cell of the memory, the way
    a C body reaches an object through a pointer or a name with static
    storage.  Loops are left out: a call that returns has run finitely many
    of these steps. *)
Inductive expr :=
  | EConst (z : Z)
  | EParam                 (* the parameter v *)
  | ELoad (a : expr).      (* the int object at an address *)

Inductive stmt :=
  | SSkip
  | SAssignParam (e : expr)      (* v = e; *)
  | SStore (a : expr) (e : expr) (* the object at address a is assigned e *)
  | SSeq (s1 s2 : stmt)
  | SIf (e : expr) (s1 s2 : stmt).

Fixpoint eval (v : Z) (m : memory) (e : expr) : Z :=
  match e with
  | EConst z => z
  | EParam => v
  | ELoad a => load m (eval v m a)
  end.

(** Running a statement: the value of the parameter and the memory at the
    end, and the addresses that were written, in order. *)
Fixpoint exec (int_bits : Z) (s : stmt) (v : Z) (m : memory)
  : Z * memory * list addr :=
  match s with
  | SSkip => (v, m, [])
  | SAssignParam e => (to_int int_bits (eval v m e), m, [])
  | SStore a e =>
      (v, <[ eval v m a := to_int int_bits (eval v m e) ]> m, [eval v m a])
  | SSeq s1 s2 =>
      let '(v1, m1, w1) := exec int_bits s1 v m in
      let '(v2, m2, w2) := exec int_bits s2 v1 m1 in
      (v2, m2, app w1 w2)
  | SIf e s1 s2 =>
      if Z.eqb (eval v m e) 0 then exec int_bits s2 v m
      else exec int_bits s1 v m
  end.

(** The argument in vertex position: the caller's variable at an address, or
    a constant. *)
Inductive vertex_arg :=
  | ArgVar (x : addr)
  | ArgConst (z : Z).

Definition eval_arg (m : memory) (a : vertex_arg) : Z :=
  match a with
  | ArgVar x => load m x
  | ArgConst z => z
  end.

Section Calling.
(** The host's object type stays abstract. *)
Context {SEXP : Type}.

(** A body: the statements it runs, and the object it returns, computed from
    the graph argument and from what the statements leave. *)
Record body := {
  code : stmt;
  result : SEXP -> Z -> memory -> SEXP
}.

(** What a call leaves behind. *)
Record outcome := {
  returned : SEXP;
  param_at_entry : Z;       (* the value the parameter v starts with *)
  param_at_exit : Z;        (* its value when the body ends; then discarded *)
  memory_after : memory;
  written : list addr
}.

(** The call [get_out_neighborhood_C(g, a)]: the arguments are evaluated,
    the parameter [v], an object of its own, is assigned the value of the
    vertex argument converted to [int], and the body runs. *)
Definition call_get_out_neighborhood_C (int_bits : Z) (f : body)
    (g : SEXP) (a : vertex_arg) (m : memory) : outcome :=
  let v0 := to_int int_bits (eval_arg m a) in
  let '(v1, m1, ws) := exec int_bits (code f) v0 m in
  {| returned := result f g v1 m1;
     param_at_entry := v0; param_at_exit := v1;
     memory_after := m1; written := ws |}.
End Calling.

Arguments body : clear implicits.
Arguments outcome : clear implicits.

(** A body that overwrites its parameter and then writes the cell 200. *)
Definition overwriting_body : body nat :=
  {| code := SSeq (SAssignParam (EConst 0))
                  (SStore (EConst 200) EParam);
     result := fun g _ _ => g |}.

(** Whether a statement contains a store. *)
Fixpoint has_store (s : stmt) : bool :=
  match s with
  | SSkip | SAssignParam _ => false
  | SStore _ _ => true
  | SSeq s1 s2 | SIf _ s1 s2 => has_store s1 || has_store s2
  end.

End Call.

(** ** The order of calls *)

Module Protocol.

Section Calls.
Context {SEXP : Type}.

Inductive call :=
  | CallRegister
  | CallGetOutNeighborhood (g : SEXP) (v : Z).

(** Whether the native functions have been linked to the host. *)
Inductive linkage := Unlinked | Linked.

(** Modelled from the spec: the bodies of [register_functions_C] and
    [get_out_neighborhood_C] are missing from the source, which only
    declares them.  The registration is "a one-time setup call establishing
    linkage between native functions and an embedding host before they can
    be invoked" and "must be invoked before any other declared function";
    the header says "call before calling anything else in this header".
    A call that breaks this contract has no successor state. *)
Definition step (s : linkage) (c : call) : option linkage :=
  match s, c with
  | Unlinked, CallRegister => Some Linked
  | Linked, CallRegister => None
  | Unlinked, CallGetOutNeighborhood _ _ => None
  | Linked, CallGetOutNeighborhood _ _ => Some Linked
  end.

Fixpoint run_calls (s : linkage) (cs : list call) : option linkage :=
  match cs with
  | [] => Some s
  | c :: rest =>
      match step s c with
      | Some s' => run_calls s' rest
      | None => None
      end
  end.

(** A call sequence is valid when no call of it breaks the contract,
    starting from a freshly loaded library. *)
Definition valid (cs : list call) : bool :=
  match run_calls Unlinked cs with
  | Some _ => true
  | None => false
  end.

(** Accessor calls, one for each pair of arguments. *)
Definition accessor_calls (args : list (SEXP * Z)) : list call :=
  map (fun a => CallGetOutNeighborhood (fst a) (snd a)) args.

Definition is_register (c : call) : bool :=
  match c with
  | CallRegister => true
  | CallGetOutNeighborhood _ _ => false
  end.

Definition registrations (cs : list call) : nat :=
  length (List.filter is_register cs).
End Calls.

Arguments call : clear implicits.

End Protocol.

(** ** The out-neighborhood *)

Module Graph.

Section OutNeighborhood.
(** The graph handle is opaque; all that is assumed of the native graph
    storage is that a handle stands for a collection of directed edges. *)
Context {SEXP : Type}.
Variable edges : SEXP -> list (Z * Z).

(** Modelled from the spec: the body of [get_out_neighborhood_C] is
    missing from the source, which only declares it ("get out neighborhood
    of a vertex v in a graph g").  The out-neighborhood is "the set of
    vertices directly reachable from a given vertex via outgoing edges";
    the result is taken as that set of vertices, not as the host object
    that carries it. *)
Definition get_out_neighborhood_C (g : SEXP) (v : Z) : gset Z :=
  list_to_set (snd <$> filter (fun e => fst e = v) (edges g)).

(** [w] is directly reachable from [v]: one outgoing edge of [v] leads to
    it. *)
Inductive directly_reachable (g : SEXP) (v : Z) : Z -> Prop :=
  | out_edge (w : Z) : (v, w) ∈ edges g -> directly_reachable g v w.
End OutNeighborhood.

End Graph.

(** * Properties *)

Import Header.

(** ** The text of the header *)

Lemma network_c_h_plines :
  content_lines network_c_h =
  [ PIfndef "NETWORK_H_"
  ; PDefine "NETWORK_H_"
  ; PInclude "Rinternals.h"
  ; PText [TId "void"; TId "register_functions_C"; TPunct "("; TPunct ")";
           TPunct ";"]
  ; PText [TId "SEXP"; TId "get_out_neighborhood_C"; TPunct "("; TId "SEXP";
           TId "g"; TPunct ","; TId "int"; TId "v"; TPunct ")"; TPunct ";"]
  ; PEndif ].
Proof. vm_compute. reflexivity. Qed.

(** Blank lines change nothing in a run of the directives. *)
Lemma run_content stack defs ls :
  run stack defs (List.filter (fun l => negb (is_blank l)) ls) = run stack defs ls.
Proof.
  revert stack defs.
  induction ls as [|l ls IH]; intros stack defs; [reflexivity|].
  destruct l as [m|m|f| |ts|ts]; cbn [List.filter is_blank negb run];
    rewrite ?IH; try reflexivity.
  destruct ts as [|t ts]; cbn [List.filter is_blank negb run];
    rewrite ?IH; reflexivity.
Qed.

Lemma preprocess_content defs file :
  preprocess defs file = run [] defs (content_lines file).
Proof. unfold preprocess, content_lines. symmetry. apply run_content. Qed.

Lemma network_c_h_items_eq :
  network_c_h_items =
  [ IInclude "Rinternals.h"
  ; IText [TId "void"; TId "register_functions_C"; TPunct "("; TPunct ")";
           TPunct ";"]
  ; IText [TId "SEXP"; TId "get_out_neighborhood_C"; TPunct "("; TId "SEXP";
           TId "g"; TPunct ","; TId "int"; TId "v"; TPunct ")"; TPunct ";"] ].
Proof.
  unfold network_c_h_items. rewrite preprocess_content, network_c_h_plines.
  cbn [run active andb tail].
  rewrite bool_decide_eq_false_2 by set_solver.
  reflexivity.
Qed.

Lemma declarations_of_items :
  declarations network_c_h_items =
  [ FunDeclNoProto TVoid "register_functions_C"
  ; FunDecl (TNamed "SEXP") "get_out_neighborhood_C"
      [ {| p_type := TNamed "SEXP"; p_name := "g" |}
      ; {| p_type := TInt; p_name := "v" |} ] ].
Proof. rewrite network_c_h_items_eq. vm_compute. reflexivity. Qed.

Lemma network_c_h_decls_eq :
  network_c_h_decls =
  [ FunDeclNoProto TVoid "register_functions_C"
  ; FunDecl (TNamed "SEXP") "get_out_neighborhood_C"
      [ {| p_type := TNamed "SEXP"; p_name := "g" |}
      ; {| p_type := TInt; p_name := "v" |} ] ].
Proof. unfold network_c_h_decls. exact declarations_of_items. Qed.

(** With the guard macro defined, the header contributes nothing and defines
    nothing new. *)
Lemma guarded_inclusion (defs : gset string) :
  "NETWORK_H_" ∈ defs -> preprocess defs network_c_h = (defs, []).
Proof.
  intros Hin. rewrite preprocess_content, network_c_h_plines.
  cbn [run active andb tail].
  rewrite bool_decide_eq_true_2 by exact Hin.
  reflexivity.
Qed.

Lemma first_inclusion :
  exists defs, "NETWORK_H_" ∈ defs /\
    preprocess ∅ network_c_h = (defs, network_c_h_items).
Proof.
  exists ({[ "NETWORK_H_" ]} ∪ ∅). split; [set_solver|].
  rewrite network_c_h_items_eq, preprocess_content, network_c_h_plines.
  cbn [run active andb tail].
  rewrite bool_decide_eq_false_2 by set_solver.
  reflexivity.
Qed.

Lemma later_inclusions (n : nat) (defs : gset string) :
  "NETWORK_H_" ∈ defs ->
  include_times n defs network_c_h = (defs, replicate n []).
Proof.
  intros Hin. induction n as [|n IH]; [reflexivity|].
  cbn [include_times replicate].
  rewrite (guarded_inclusion defs Hin), IH. reflexivity.
Qed.

Lemma concat_replicate_nil {A} (n : nat) :
  concat (replicate n (@nil A)) = [].
Proof. induction n as [|n IH]; [reflexivity|exact IH]. Qed.

(** C3: the accessor [get_out_neighborhood_C] is declared with exactly two
    parameters, [g] of the type [SEXP] and [v] of type [int], and with the
    return type [SEXP]; the header names [SEXP] and does not define it, so
    graph reference and result are opaque here. *)
Theorem get_out_neighborhood_C_signature :
  lookup_decl "get_out_neighborhood_C" network_c_h_decls =
    Some (FunDecl (TNamed "SEXP") "get_out_neighborhood_C"
            [ {| p_type := TNamed "SEXP"; p_name := "g" |}
            ; {| p_type := TInt; p_name := "v" |} ])
  /\ opaque network_c_h_decls (TNamed "SEXP") = true.
Proof. rewrite network_c_h_decls_eq. split; reflexivity. Qed.


(** The parser tells the two forms of declarator apart. *)
Example empty_parentheses_and_void_list :
  parse_decl (tokenize "void f();") = FunDeclNoProto TVoid "f"
  /\ parse_decl (tokenize "void f(void);") = FunDecl TVoid "f" [].
Proof. split; vm_compute; reflexivity. Qed.


(** C5, as the header has it: between [#ifndef NETWORK_H_],
    [#define NETWORK_H_] and the closing [#endif] the header holds one
    [#include], of [Rinternals.h], and exactly two function declarations:
    [register_functions_C], with empty parentheses and so without a
    prototype (C4), and the prototype of [get_out_neighborhood_C] (C3).  The
    header itself holds no function definition, no struct, union, enum or
    typedef and no other declaration; what [Rinternals.h] declares is not
    part of the source. *)
Theorem header_declares_two_functions_only :
  (exists inner,
     content_lines network_c_h =
       PIfndef "NETWORK_H_" :: PDefine "NETWORK_H_" :: app inner [PEndif]
     /\ declarations (snd (run [] ∅ inner)) = network_c_h_decls)
  /\ network_c_h_decls =
       [ FunDeclNoProto TVoid "register_functions_C"
       ; FunDecl (TNamed "SEXP") "get_out_neighborhood_C"
           [ {| p_type := TNamed "SEXP"; p_name := "g" |}
           ; {| p_type := TInt; p_name := "v" |} ] ]
  /\ map is_prototype network_c_h_decls = [false; true]
  /\ List.filter (fun d => negb (is_fun_decl d)) network_c_h_decls = []
  /\ unknown_directives network_c_h_items = []
  /\ includes network_c_h_items = ["Rinternals.h"].
Proof.
  split.
  - exists (take 3 (drop 2 (content_lines network_c_h))).
    rewrite network_c_h_plines, network_c_h_decls_eq.
    split; [reflexivity|]. vm_compute. reflexivity.
  - rewrite network_c_h_decls_eq, network_c_h_items_eq.
    repeat split; reflexivity.
Qed.

(** C5, as stated, fails: what stands inside the guard is not two lines of
    declarations only, there is the [#include] as well; and read as C up to
    C17 the two declarations are not both prototypes. *)
Lemma header_is_not_two_prototypes_only :
  ~ (exists p1 p2,
       content_lines network_c_h =
         [ PIfndef "NETWORK_H_"; PDefine "NETWORK_H_"; PText p1; PText p2;
           PEndif ])
  /\ forallb is_prototype network_c_h_decls = false.
Proof.
  rewrite network_c_h_plines, network_c_h_decls_eq. split.
  - intros (p1 & p2 & H). discriminate H.
  - reflexivity.
Qed.

(** C7, as the file has it: the supplied excerpt is one file, a header, of
    21 lines.  Twenty of them end in a line terminator; the last one,
    [#endif], does not, so the file holds 20 line terminators. *)
Theorem excerpt_is_one_header_of_21_lines :
  map fst repository = ["src/network_c.h"]
  /\ forallb (fun f => has_suffix ".h" (fst f)) repository = true
  /\ map (fun f => line_count (snd f)) repository = [21%nat]
  /\ split_lines network_c_h = network_c_h_lines
  /\ newline_count network_c_h = 20%nat
  /\ last_fragment "" network_c_h = "#endif".
Proof. repeat split; vm_compute; reflexivity. Qed.

(** C7, as stated, fails: the header does not have exactly 20 lines, its
    twenty-first line is the closing [#endif]. *)
Lemma excerpt_is_not_of_20_lines :
  ~ (map (fun f => line_count (snd f)) repository = [20%nat]).
Proof. vm_compute. discriminate. Qed.

(** C8: including the header is idempotent.  In a translation unit that
    includes it [n + 1] times the first inclusion contributes the items of
    the header and every later one contributes nothing, so the unit holds
    the same two declarations as after one inclusion. *)
Theorem inclusion_is_idempotent (n : nat) :
  snd (include_times (S n) ∅ network_c_h) = network_c_h_items :: replicate n []
  /\ declarations (concat (snd (include_times (S n) ∅ network_c_h)))
     = declarations (concat (snd (include_times 1 ∅ network_c_h)))
  /\ declarations (concat (snd (include_times (S n) ∅ network_c_h)))
     = [ FunDeclNoProto TVoid "register_functions_C"
       ; FunDecl (TNamed "SEXP") "get_out_neighborhood_C"
           [ {| p_type := TNamed "SEXP"; p_name := "g" |}
           ; {| p_type := TInt; p_name := "v" |} ] ].
Proof.
  destruct first_inclusion as (defs & Hin & Hfirst).
  assert (Hall : forall k,
    snd (include_times (S k) ∅ network_c_h) = network_c_h_items :: replicate k []).
  { intros k. cbn [include_times]. rewrite Hfirst.
    rewrite (later_inclusions k defs Hin). reflexivity. }
  rewrite (Hall n), (Hall 0%nat).
  cbn [concat replicate]. rewrite concat_replicate_nil, app_nil_r.
  split; [reflexivity|]. split; [reflexivity|].
  exact declarations_of_items.
Qed.

(** ** The vertex parameter *)

Import CInt.

Lemma vertex_param_type :
  param_type "get_out_neighborhood_C" "v" network_c_h_decls = Some TInt.
Proof. rewrite network_c_h_decls_eq. reflexivity. Qed.

Lemma admits_int_range (int_bits z : Z) :
  admits int_bits TInt z = true <->
  (INT_MIN int_bits <= z <= INT_MAX int_bits)%Z.
Proof. unfold admits. rewrite andb_true_iff, !Z.leb_le. reflexivity. Qed.

Lemma INT_MAX_nonneg (int_bits : Z) :
  (16 <= int_bits)%Z -> (0 <= INT_MAX int_bits)%Z.
Proof.
  intros Hw. unfold INT_MAX.
  assert (0 < 2 ^ (int_bits - 1))%Z by (apply Z.pow_pos_nonneg; lia).
  lia.
Qed.

(** C9: the parameter [v] of [get_out_neighborhood_C] has the signed type
    [int].  Whatever the width of [int] (at least 16 bits), a vertex index
    reaches the function exactly when it lies between [INT_MIN] and
    [INT_MAX]: none above [INT_MAX] does, and zero and every negative index
    down to [INT_MIN] do. *)
Theorem vertex_index_is_a_signed_int (int_bits z : Z) :
  (16 <= int_bits)%Z ->
  param_type "get_out_neighborhood_C" "v" network_c_h_decls = Some TInt
  /\ is_signed TInt = true
  /\ (admits int_bits TInt z = true -> (z <= INT_MAX int_bits)%Z)
  /\ admits int_bits TInt (INT_MAX int_bits + 1) = false
  /\ admits int_bits TInt 0 = true
  /\ admits int_bits TInt (-1) = true
  /\ ((INT_MIN int_bits <= z < 0)%Z -> admits int_bits TInt z = true).
Proof.
  intros Hw. pose proof (INT_MAX_nonneg int_bits Hw) as Hmax.
  assert (Hmin : (INT_MIN int_bits <= -1)%Z) by (unfold INT_MIN, INT_MAX in *; lia).
  split; [exact vertex_param_type|]. split; [reflexivity|].
  split; [intros H; apply admits_int_range in H; lia|].
  split.
  { apply not_true_is_false. intros H. apply admits_int_range in H. lia. }
  split; [apply admits_int_range; lia|].
  split; [apply admits_int_range; lia|].
  intros H. apply admits_int_range. lia.
Qed.

Lemma vertex_index_is_a_signed_int_witness :
  (16 <= 32)%Z
  /\ admits 32 TInt 2147483648 = false
  /\ admits 32 TInt 0 = true.
Proof.
  assert (Hw : (16 <= 32)%Z) by lia.
  destruct (vertex_index_is_a_signed_int 32 5 Hw)
    as (_ & _ & _ & Habove & Hzero & _).
  split; [exact Hw|]. split; [exact Habove|exact Hzero].
Defined.

(** ** Calls *)

Import Call.

Lemma to_int_in_range (int_bits z : Z) :
  (16 <= int_bits)%Z ->
  (INT_MIN int_bits <= to_int int_bits z <= INT_MAX int_bits)%Z.
Proof.
  intros Hw. unfold to_int, INT_MIN, INT_MAX.
  assert (Hhalf : (0 < 2 ^ (int_bits - 1))%Z) by (apply Z.pow_pos_nonneg; lia).
  assert (Hfull : (2 ^ int_bits = 2 * 2 ^ (int_bits - 1))%Z).
  { rewrite <- Z.pow_succ_r by lia. f_equal. lia. }
  pose proof (Z.mod_pos_bound (z + 2 ^ (int_bits - 1)) (2 ^ int_bits)) as Hmod.
  lia.
Qed.

(** A value in the range of [int] is converted to itself. *)
Lemma to_int_of_int (int_bits z : Z) :
  (16 <= int_bits)%Z ->
  (INT_MIN int_bits <= z <= INT_MAX int_bits)%Z ->
  to_int int_bits z = z.
Proof.
  intros Hw Hz. unfold to_int, INT_MIN, INT_MAX in *.
  assert (Hhalf : (0 < 2 ^ (int_bits - 1))%Z) by (apply Z.pow_pos_nonneg; lia).
  assert (Hfull : (2 ^ int_bits = 2 * 2 ^ (int_bits - 1))%Z).
  { rewrite <- Z.pow_succ_r by lia. f_equal. lia. }
  rewrite Z.mod_small by lia. lia.
Qed.

(** A cell that a run does not write keeps its content. *)
Lemma exec_frame (int_bits : Z) (s : stmt) (v : Z) (m : memory) (x : addr) :
  x ∉ (exec int_bits s v m).2 ->
  (exec int_bits s v m).1.2 !! x = m !! x.
Proof.
  revert v m. induction s as [|e|a e|s1 IH1 s2 IH2|e s1 IH1 s2 IH2];
    intros v m; cbn [exec].
  - reflexivity.
  - reflexivity.
  - cbn [fst snd]. intros Hx. apply lookup_insert_ne.
    intros Heq. apply Hx. rewrite Heq. apply list_elem_of_here.
  - specialize (IH1 v m).
    destruct (exec int_bits s1 v m) as [[v1 m1] w1].
    specialize (IH2 v1 m1).
    destruct (exec int_bits s2 v1 m1) as [[v2 m2] w2].
    cbn [fst snd] in *. intros Hx.
    rewrite IH2, IH1; [reflexivity| |];
      intros Hin; apply Hx; apply elem_of_app; [left|right]; exact Hin.
  - destruct (Z.eqb (eval v m e) 0); [apply IH2|apply IH1].
Qed.

(** Assignments to the parameter write no cell at all. *)
Lemma exec_without_store (int_bits : Z) (s : stmt) (v : Z) (m : memory) :
  has_store s = false ->
  (exec int_bits s v m).1.2 = m /\ (exec int_bits s v m).2 = [].
Proof.
  revert v m. induction s as [|e|a e|s1 IH1 s2 IH2|e s1 IH1 s2 IH2];
    intros v m; cbn [exec has_store]; intros Hns.
  - split; reflexivity.
  - split; reflexivity.
  - discriminate.
  - apply orb_false_iff in Hns as [H1 H2].
    specialize (IH1 v m H1).
    destruct (exec int_bits s1 v m) as [[v1 m1] w1].
    specialize (IH2 v1 m1 H2).
    destruct (exec int_bits s2 v1 m1) as [[v2 m2] w2].
    cbn [fst snd] in *. destruct IH1 as [-> ->], IH2 as [-> ->].
    split; reflexivity.
  - apply orb_false_iff in Hns as [H1 H2].
    destruct (Z.eqb (eval v m e) 0); [apply IH2|apply IH1]; assumption.
Qed.




(** ** Call sequences *)

Import Protocol.

Section CallSequences.
Context {SEXP : Type}.
Implicit Types (cs : list (call SEXP)) (s : linkage).

Lemma run_from_linked cs s :
  run_calls Linked cs = Some s -> s = Linked /\ registrations cs = 0%nat.
Proof.
  induction cs as [|c cs IH]; cbn [run_calls].
  - intros [= <-]. split; reflexivity.
  - destruct c; cbn [step]; [discriminate|exact IH].
Qed.

(** Before the registration nothing else can be called. *)
Lemma run_from_unlinked cs s :
  run_calls Unlinked cs = Some s ->
  (s = Unlinked /\ cs = [])
  \/ (s = Linked /\ exists rest,
        cs = CallRegister :: rest /\ run_calls Linked rest = Some Linked).
Proof.
  destruct cs as [|c rest]; cbn [run_calls].
  - intros [= <-]. left. split; reflexivity.
  - destruct c as [|g v]; cbn [step]; [|discriminate].
    intros Hrun. destruct (run_from_linked rest s Hrun) as [-> _].
    right. split; [reflexivity|]. exists rest. split; [reflexivity|exact Hrun].
Qed.

Lemma run_calls_app cs1 cs2 s s' :
  run_calls s cs1 = Some s' ->
  run_calls s (app cs1 cs2) = run_calls s' cs2.
Proof.
  revert s. induction cs1 as [|c cs1 IH]; intros s; cbn [run_calls app].
  - intros [= <-]. reflexivity.
  - destruct (step s c) as [s1|]; [apply IH|discriminate].
Qed.

Lemma run_accessor_calls (args : list (SEXP * Z)) :
  run_calls Linked (accessor_calls args) = Some Linked.
Proof.
  induction args as [|a args IH]; [reflexivity|exact IH].
Qed.

Lemma valid_run cs :
  valid cs = true -> exists s, run_calls Unlinked cs = Some s.
Proof.
  unfold valid. destruct (run_calls Unlinked cs) as [s|]; [eauto|discriminate].
Qed.

(** C2: in a valid call sequence every call of [get_out_neighborhood_C]
    comes after a call of [register_functions_C]. *)
Theorem registration_precedes_accessor cs (i : nat) (g : SEXP) (v : Z) :
  valid cs = true ->
  cs !! i = Some (CallGetOutNeighborhood g v) ->
  exists j, (j < i)%nat /\ cs !! j = Some CallRegister.
Proof.
  intros Hvalid Hget. destruct (valid_run cs Hvalid) as [s Hrun].
  destruct (run_from_unlinked cs s Hrun) as [[_ ->]|[_ (rest & -> & _)]].
  - discriminate.
  - destruct i as [|i]; [discriminate|].
    exists 0%nat. split; [lia|reflexivity].
Qed.

(** C6: a valid call sequence registers at most once, and once it has
    registered, any number of calls of the accessor may follow without
    another registration: the sequence stays valid and the linkage stays
    established. *)
Theorem registration_is_one_time cs (args : list (SEXP * Z)) :
  valid cs = true ->
  (registrations cs <= 1)%nat
  /\ (registrations cs = 1%nat ->
      valid (app cs (accessor_calls args)) = true
      /\ run_calls Unlinked (app cs (accessor_calls args)) = Some Linked).
Proof.
  intros Hvalid. destruct (valid_run cs Hvalid) as [s Hrun].
  destruct (run_from_unlinked cs s Hrun) as [[_ ->]|[-> (rest & -> & Hrest)]].
  - split; [cbn; lia|]. cbn. discriminate.
  - destruct (run_from_linked rest Linked Hrest) as [_ Hnone].
    assert (Hone : registrations (CallRegister :: rest) = 1%nat).
    { unfold registrations in *. cbn [List.filter is_register length].
      rewrite Hnone. reflexivity. }
    split; [lia|]. intros _.
    assert (Hall : run_calls Unlinked
              (app (CallRegister :: rest) (accessor_calls args)) = Some Linked).
    { rewrite (run_calls_app _ _ _ _ Hrun). apply run_accessor_calls. }
    split; [|exact Hall]. unfold valid. rewrite Hall. reflexivity.
Qed.

End CallSequences.

Lemma registration_precedes_accessor_witness :
  valid [CallRegister; CallGetOutNeighborhood 7%nat 3%Z] = true
  /\ exists j, (j < 1)%nat
       /\ [CallRegister; CallGetOutNeighborhood 7%nat 3%Z] !! j
          = Some CallRegister.
Proof.
  split; [reflexivity|].
  apply (registration_precedes_accessor
           [CallRegister; CallGetOutNeighborhood 7%nat 3%Z] 1 7%nat 3%Z);
    reflexivity.
Defined.

Lemma registration_is_one_time_witness :
  valid [CallRegister; CallGetOutNeighborhood 7%nat 3%Z] = true
  /\ (registrations [CallRegister; CallGetOutNeighborhood 7%nat 3%Z] <= 1)%nat
  /\ valid (app [CallRegister; CallGetOutNeighborhood 7%nat 3%Z]
              (accessor_calls [(7%nat, 1%Z); (8%nat, (-2)%Z)])) = true.
Proof.
  assert (Hvalid : valid [CallRegister; CallGetOutNeighborhood 7%nat 3%Z] = true)
    by reflexivity.
  destruct (registration_is_one_time
              [CallRegister; CallGetOutNeighborhood 7%nat 3%Z]
              [(7%nat, 1%Z); (8%nat, (-2)%Z)] Hvalid) as [Hle Hmore].
  split; [exact Hvalid|]. split; [exact Hle|].
  apply Hmore. reflexivity.
Defined.

(** Calls that break the contract: the accessor before any registration, and
    a second registration. *)
Example accessor_first_is_invalid :
  valid [CallGetOutNeighborhood 7%nat 3%Z; CallRegister] = false.
Proof. reflexivity. Qed.

Example second_registration_is_invalid :
  valid [CallRegister; @CallRegister nat] = false.
Proof. reflexivity. Qed.

(** ** The out-neighborhood *)

Import Graph.

(** C1: for every graph [g] and vertex [v], the result of
    [get_out_neighborhood_C g v] is the out-neighborhood of [v] in [g]: a
    vertex belongs to it exactly when it is directly reachable from [v] by
    an outgoing edge of [g]. *)
Theorem get_out_neighborhood_C_is_out_neighborhood {SEXP : Type}
    (edges : SEXP -> list (Z * Z)) (g : SEXP) (v w : Z) :
  w ∈ get_out_neighborhood_C edges g v <-> directly_reachable edges g v w.
Proof.
  unfold get_out_neighborhood_C.
  rewrite elem_of_list_to_set, list_elem_of_fmap. split.
  - intros ([v' w'] & -> & Hin). apply list_elem_of_filter in Hin as [Hv Hin].
    cbn in Hv. subst v'. constructor. exact Hin.
  - intros [w0 Hin]. exists (v, w0). split; [reflexivity|].
    apply list_elem_of_filter. split; [reflexivity|exact Hin].
Qed.

Example out_neighborhood_of_a_triangle :
  get_out_neighborhood_C (fun g : list (Z * Z) => g)
    [(1, 2); (2, 3); (1, 3); (3, 1); (1, 2)]%Z 1%Z = {[ 2%Z; 3%Z ]}.
Proof. vm_compute. reflexivity. Qed.

(** ** The include guard in any translation unit *)

(** X1: where the guard macro [NETWORK_H_] is already defined, whatever else
    is defined, any number of inclusions of the header contributes nothing
    at all, neither the [#include] nor a declaration, and leaves the defined
    macros as they were. *)
Theorem guarded_inclusions_contribute_nothing (n : nat) (defs : gset string) :
  "NETWORK_H_" ∈ defs ->
  include_times n defs network_c_h = (defs, replicate n [])
  /\ declarations (concat (snd (include_times n defs network_c_h))) = []
  /\ includes (concat (snd (include_times n defs network_c_h))) = [].
Proof.
  intros Hin. rewrite (later_inclusions n defs Hin). cbn [snd].
  rewrite concat_replicate_nil. repeat split.
Qed.

Lemma guarded_inclusions_contribute_nothing_witness :
  "NETWORK_H_" ∈ ({[ "NETWORK_H_"; "R_INTERNALS_H_" ]} : gset string)
  /\ include_times 2 {[ "NETWORK_H_"; "R_INTERNALS_H_" ]} network_c_h
     = ({[ "NETWORK_H_"; "R_INTERNALS_H_" ]}, [[]; []]).
Proof.
  assert (Hin : "NETWORK_H_" ∈ ({[ "NETWORK_H_"; "R_INTERNALS_H_" ]} : gset string)).
  { apply (bool_decide_unpack _). vm_compute. exact I. }
  split; [exact Hin|].
  exact (proj1 (guarded_inclusions_contribute_nothing 2 _ Hin)).
Defined.
